(** * Outlet discount calculator: pricing engine, input formatter and history

    A shallow embedding of the calculator component
    ([OutletDiscountCalculator] and the helpers above it) together with the
    properties its specification states about it.

    Conventions of the embedding.

    - A JavaScript [number] is an exact rational or [NaN].  Arithmetic is the
      arithmetic of the rationals: binary64 rounding and the two infinities
      are idealised away.  The finite values named in the specification are
      evaluated a second time in module [Binary64], on the kernel's IEEE-754
      binary64 numbers, with the same function bodies.
    - A value that may be [undefined] is an [option].  The source passes such
      values to parameters typed [number]; the coercion JavaScript applies
      there is written [ToNumber].
    - A string is a sequence of code units below 256.
    - Asynchronous handlers are run to completion, as functions in a state
      monad over a [World] that records every call made to the outside: store
      requests, alerts and console warnings. *)

From Stdlib Require Import QArith Qminmax Qround Lqa ZArith NArith Bool List.
From Stdlib Require Import String Ascii Lia Floats.
From Stdlib Require DecimalString DecimalN DecimalPos DecimalFacts.
Import ListNotations.


(* ================================================================= *)
(** * Part I.  The embedding *)
(* ================================================================= *)

(* ----------------------------------------------------------------- *)
(** ** JavaScript numbers *)

Inductive number : Type :=
| NaN
| Num (q : Q).

Arguments Num q%_Q.

Declare Scope js_scope.
Delimit Scope js_scope with js.
Bind Scope js_scope with number.

Definition arith (f : Q -> Q -> Q) (a b : number) : number :=
  match a, b with
  | Num x, Num y => Num (f x y)
  | _, _ => NaN
  end.

Definition add : number -> number -> number := arith Qplus.
Definition sub : number -> number -> number := arith Qminus.
Definition mul : number -> number -> number := arith Qmult.

(** Every divisor of the source is either the literal 100 or [final || 1];
    a zero divisor would give an infinity, which the model does not have. *)
Definition div (a b : number) : number :=
  match a, b with
  | Num x, Num y => if Qeq_bool y 0 then NaN else Num (x / y)
  | _, _ => NaN
  end.

Infix "+" := add : js_scope.
Infix "-" := sub : js_scope.
Infix "*" := mul : js_scope.
Infix "/" := div : js_scope.

(** [a <= b], [a < b] and [a === b]: false as soon as one side is [NaN]. *)
Definition leb (a b : number) : bool :=
  match a, b with
  | Num x, Num y => Qle_bool x y
  | _, _ => false
  end.

Definition ltb (a b : number) : bool :=
  match a, b with
  | Num x, Num y => negb (Qle_bool y x)
  | _, _ => false
  end.

Definition strict_eq (a b : number) : bool :=
  match a, b with
  | Num x, Num y => Qeq_bool x y
  | _, _ => false
  end.

Definition geb (a b : number) : bool := leb b a.

Infix "<=?" := leb : js_scope.
Infix ">=?" := geb (at level 70, no associativity) : js_scope.
Infix "<?" := ltb : js_scope.
Infix "===" := strict_eq (at level 70, no associativity) : js_scope.

Definition isNaN (a : number) : bool :=
  match a with
  | NaN => true
  | Num _ => false
  end.

Definition Math_max (a b : number) : number :=
  match a, b with
  | Num x, Num y => Num (if Qle_bool x y then y else x)
  | _, _ => NaN
  end.

Definition Math_min (a b : number) : number :=
  match a, b with
  | Num x, Num y => Num (if Qle_bool x y then x else y)
  | _, _ => NaN
  end.

(** [undefined] where a number is expected. *)
Definition ToNumber (v : option number) : number :=
  match v with
  | Some n => n
  | None => NaN
  end.

(** [v ?? d] *)
Definition nullish (v : option number) (d : number) : number :=
  match v with
  | Some n => n
  | None => d
  end.

(** Truthiness of a number, and [a || d]. *)
Definition truthy (a : number) : bool :=
  match a with
  | NaN => false
  | Num x => negb (Qeq_bool x 0)
  end.

Definition or_else (a d : number) : number :=
  if truthy a then a else d.

(** The same value up to the representation of the rational. *)
Inductive same_number : number -> number -> Prop :=
| same_NaN : same_number NaN NaN
| same_Num (x y : Q) : x == y -> same_number (Num x) (Num y).

Infix "=n=" := same_number (at level 70, no associativity) : type_scope.

(** [lo <= a <= hi] as the source's comparisons decide it. *)
Definition within (a lo hi : number) : bool :=
  leb lo a && leb a hi.

(* ----------------------------------------------------------------- *)
(** ** Platform independent utilities *)

Inductive DiscountMode : Type :=
| amount
| percent.

Definition clamp (n min max : number) : number :=
  Math_min max (Math_max min n).

Definition step2AfterFirstDiscount
    (basePrice : option number) (mode : DiscountMode)
    (amount_ percent_ : option number) : number :=
  match mode with
  | amount =>
      let amt := clamp (nullish amount_ (Num 0)) (Num 0) (ToNumber basePrice) in
      Math_max (Num 0) (ToNumber basePrice - amt)
  | percent =>
      let p := clamp (nullish percent_ (Num 0)) (Num 0) (Num 100) in
      (ToNumber basePrice * (Num 1 - p / Num 100))%js
  end.

Definition applyExtraPercent (price : number) (extraPercent : option number)
  : number :=
  (price * (Num 1 - clamp (ToNumber extraPercent) (Num 0) (Num 100) / Num 100))%js.

Definition simpleRefund10 (final : number) : number :=
  (final * Num 0.1)%js.

(** Kream: net = price * 0.956 - 5500, fee = price - net. *)
Definition kreamNetFromPrice (price : option number) : option number :=
  match price with
  | None => None
  | Some price => Some (price * Num 0.956 - Num 5500)%js
  end.

Definition kreamFeeFromPrice (price net : option number) : option number :=
  match price, net with
  | Some price, Some net => Some (price - net)%js
  | _, _ => None
  end.

(** Poizon: at most 150000, p - 15000; at least 450000, p - 45000;
    otherwise p * 0.9. *)
Definition poizonNetFromPrice (price : option number) : option number :=
  match price with
  | None => None
  | Some p =>
      if (p <=? Num 150000)%js then Some (p - Num 15000)%js
      else if (p >=? Num 450000)%js then Some (p - Num 45000)%js
      else Some (p * Num 0.9)%js
  end.

Definition poizonFeeFromPrice (price net : option number) : option number :=
  match price, net with
  | Some price, Some net => Some (price - net)%js
  | _, _ => None
  end.

(* ----------------------------------------------------------------- *)
(** ** The same utilities on binary64 numbers

    The bodies are those of the definitions above, read on the kernel's
    floating-point numbers.  [Math.max] and [Math.min] return [NaN] as soon
    as one argument is [NaN] and order [-0] below [+0]. *)

Module Binary64.

Local Open Scope float_scope.
Local Set Warnings "-inexact-float".

Definition is_neg_zero (a : float) : bool :=
  match classify a with
  | NZero => true
  | _ => false
  end.

Definition is_pos_zero (a : float) : bool :=
  match classify a with
  | PZero => true
  | _ => false
  end.

Definition Math_max (a b : float) : float :=
  if is_nan a || is_nan b then nan
  else if a <? b then b
  else if b <? a then a
  else if is_neg_zero a then b else a.

Definition Math_min (a b : float) : float :=
  if is_nan a || is_nan b then nan
  else if a <? b then a
  else if b <? a then b
  else if is_pos_zero a then b else a.

Definition ToNumber (v : option float) : float :=
  match v with
  | Some n => n
  | None => nan
  end.

Definition nullish (v : option float) (d : float) : float :=
  match v with
  | Some n => n
  | None => d
  end.

Definition clamp (n min max : float) : float :=
  Math_min max (Math_max min n).

Definition step2AfterFirstDiscount
    (basePrice : option float) (mode : DiscountMode)
    (amount_ percent_ : option float) : float :=
  match mode with
  | amount =>
      let amt := clamp (nullish amount_ 0) 0 (ToNumber basePrice) in
      Math_max 0 (ToNumber basePrice - amt)
  | percent =>
      let p := clamp (nullish percent_ 0) 0 100 in
      ToNumber basePrice * (1 - p / 100)
  end.

Definition applyExtraPercent (price : float) (extraPercent : option float)
  : float :=
  price * (1 - clamp (ToNumber extraPercent) 0 100 / 100).

Definition simpleRefund10 (final : float) : float :=
  final * 0.1.

Definition afterRefund10 (final : float) : float :=
  Math_max 0 (final - simpleRefund10 final).

Definition kreamNetFromPrice (price : option float) : option float :=
  match price with
  | None => None
  | Some price => Some (price * 0.956 - 5500)
  end.

Definition kreamFeeFromPrice (price net : option float) : option float :=
  match price, net with
  | Some price, Some net => Some (price - net)
  | _, _ => None
  end.

Definition poizonNetFromPrice (price : option float) : option float :=
  match price with
  | None => None
  | Some p =>
      if p <=? 150000 then Some (p - 15000)
      else if 450000 <=? p then Some (p - 45000)
      else Some (p * 0.9)
  end.

Definition poizonFeeFromPrice (price net : option float) : option float :=
  match price, net with
  | Some price, Some net => Some (price - net)
  | _, _ => None
  end.

(** [a === b] on two possibly undefined numbers. *)
Definition opt_eqb (a b : option float) : bool :=
  match a, b with
  | Some x, Some y => x =? y
  | None, None => true
  | _, _ => false
  end.

End Binary64.

(* ----------------------------------------------------------------- *)
(** ** Strings and the number formatter for inputs *)

Local Open Scope string_scope.

(** [/[0-9]/] *)
Definition is_digit (c : ascii) : bool :=
  let n := N_of_ascii c in (48 <=? n)%N && (n <=? 57)%N.

(** [value.replace(/[^0-9]/g, "")] *)
Fixpoint strip_non_digits (value : string) : string :=
  match value with
  | "" => ""
  | String c rest =>
      if is_digit c then String c (strip_non_digits rest)
      else strip_non_digits rest
  end.

Definition digit_value (c : ascii) : N := (N_of_ascii c - 48)%N.

Fixpoint digits_value (digits : string) (acc : N) : N :=
  match digits with
  | "" => acc
  | String c rest => digits_value rest (10 * acc + digit_value c)%N
  end.

(** [Number(digits)] on a string of decimal digits: a natural number, kept
    exact however long the string is. *)
Definition Number_of_digits (digits : string) : N := digits_value digits 0.

(** The decimal digits of a natural number, most significant first. *)
Definition decimal (n : N) : string :=
  DecimalString.NilZero.string_of_uint (N.to_uint n).

(** Thousands grouping: a comma after every digit that is followed by a
    positive multiple of three digits. *)
Fixpoint group3 (digits : string) : string :=
  match digits with
  | "" => ""
  | String c rest =>
      if negb (length rest =? 0)%nat && (length rest mod 3 =? 0)%nat
      then String c (String "," (group3 rest))
      else String c (group3 rest)
  end.

(** [new Intl.NumberFormat("ko-KR").format(n)] on a natural number. *)
Definition Intl_NumberFormat_format (n : N) : string := group3 (decimal n).

Definition is_empty (s : string) : bool :=
  match s with
  | "" => true
  | String _ _ => false
  end.

Definition formatNumberInput (value : string) : string :=
  let digits := strip_non_digits value in
  if is_empty digits then ""
  else Intl_NumberFormat_format (Number_of_digits digits).

(** The result is typed by what [Number] returns on a string of digits: a
    natural number, or nothing. *)
Definition parseNumberInput (value : string) : option N :=
  let digits := strip_non_digits value in
  if is_empty digits then None else Some (Number_of_digits digits).

Definition number_of_N (n : N) : number := Num (inject_Z (Z.of_N n)).

Fixpoint drop_zeros (l : list ascii) : list ascii :=
  match l with
  | c :: rest => if Ascii.eqb c "0" then drop_zeros rest else l
  | [] => []
  end.

(** The digits without their trailing zeros. *)
Definition significant_digits (digits : string) : string :=
  string_of_list_ascii
    (rev (drop_zeros (rev (list_ascii_of_string digits)))).

(** [Number.prototype.toString] on a natural number: plain decimal digits
    below 10^21, and from there on the scientific form, the significant
    digits of the exact value as [d.ddd], then [e+] and the decimal
    exponent. *)
Definition Number_toString (n : N) : string :=
  if (n <? 10 ^ 21)%N then decimal n
  else
    let digits := decimal n in
    let e := decimal (N.of_nat (length digits - 1)) in
    match significant_digits digits with
    | "" => ""
    | String d "" => String d ("e+" ++ e)
    | String d rest => String d ("." ++ rest ++ "e+" ++ e)
    end.

(** [String.prototype.trim]: the white space and line terminators that have
    a code unit below 256. *)
Definition is_white_space (c : ascii) : bool :=
  let n := N_of_ascii c in
  ((9 <=? n)%N && (n <=? 13)%N) || (n =? 32)%N || (n =? 160)%N.

Fixpoint trimStart (s : string) : string :=
  match s with
  | "" => ""
  | String c rest => if is_white_space c then trimStart rest else s
  end.

Fixpoint trimEnd (s : string) : string :=
  match s with
  | "" => ""
  | String c rest =>
      let rest' := trimEnd rest in
      if is_white_space c && is_empty rest' then "" else String c rest'
  end.

Definition trim (s : string) : string := trimEnd (trimStart s).

(** [toKrw]: the dash for what is not a number, otherwise the nearest
    integer, grouped and followed by the currency sign. *)
Inductive Display : Type :=
| Dash
| Won (n : Z).

Definition Math_round (q : Q) : Z := Qfloor (q + (1 # 2))%Q.

Definition toKrw (n : option number) : Display :=
  match ToNumber n with
  | NaN => Dash
  | Num q => Won (Math_round q)
  end.

(* ----------------------------------------------------------------- *)
(** ** Types *)

Module HistoryItem.

Record t : Type := Build {
  id : string;
  basePrice : option number;
  discountMode : DiscountMode;
  baseDiscountAmount : option number;
  baseDiscountPercent : option number;
  extra : number;
  memo : option string;
  final : number;
  refund10 : number;
  kreamPrice : option number;
  kreamFee : option number;
  kreamNet : option number;
  poizonPrice : option number;
  poizonFee : option number;
  poizonNet : option number;
  created_at : option string
}.

End HistoryItem.

(** A row of the table [outlet_history]; [None] is [null], and
    [created_at] is filled by the store. *)
Module Row.

Record t : Type := Build {
  id : string;
  memo : option string;
  base_price : option number;
  discount_mode : DiscountMode;
  base_discount_amount : option number;
  base_discount_percent : option number;
  extra : number;
  final : number;
  refund10 : number;
  kream_price : option number;
  kream_net : option number;
  poizon_price : option number;
  poizon_net : option number;
  created_at : option string
}.

End Row.

(* ----------------------------------------------------------------- *)
(** ** The outside world *)

(** [NotConfigured] is the error the three store functions build themselves
    when no client exists; any other error comes from the store. *)
Inductive Error : Type :=
| NotConfigured
| StoreError (message : string).

Inductive StoreCall : Type :=
| InsertCall (row : Row.t)
| SelectCall (limit : nat)
| DeleteCall (id : string).

(** The one alert of the component: the item field is empty, nothing is
    saved. *)
Inductive Alert : Type :=
| EmptyMemoAlert.

Inductive Warning : Type :=
| InsertFailed (e : Error)
| DeleteFailed (e : Error).

Record World : Type := mkWorld {
  store_calls : list StoreCall;
  alerts : list Alert;
  warnings : list Warning;
  ids_drawn : nat
}.

(** What the store answers to a select: [{ data, error }]. *)
Record SelectResponse : Type := mkSelectResponse {
  response_data : option (list Row.t);
  response_error : option Error
}.

(** A client answers each request from the requests made so far. *)
Record SupabaseClient : Type := mkClient {
  insert_response : list StoreCall -> Row.t -> option Error;
  select_response : list StoreCall -> nat -> SelectResponse;
  delete_response : list StoreCall -> string -> option Error
}.

(** The environment of the page: the two configuration values, the client
    factory, whether [window] exists, and the identifiers [crypto.randomUUID]
    (when the browser has it) or the text of [Date.now()] and
    [Math.random()] yield at the n-th draw. *)
Record Env : Type := mkEnv {
  SUPABASE_URL : option string;
  SUPABASE_ANON_KEY : option string;
  createClient : string -> string -> SupabaseClient;
  window_defined : bool;
  crypto_randomUUID : option (nat -> string);
  Date_now_Math_random : nat -> string
}.

Definition truthy_string (v : option string) : bool :=
  match v with
  | Some s => negb (is_empty s)
  | None => false
  end.

Definition supabase (env : Env) : option SupabaseClient :=
  match SUPABASE_URL env, SUPABASE_ANON_KEY env with
  | Some url, Some key =>
      if truthy_string (Some url) && truthy_string (Some key)
      then Some (createClient env url key)
      else None
  | _, _ => None
  end.

(** *** A state monad over the world *)

Definition IO (A : Type) : Type := World -> A * World.

Definition ret {A : Type} (a : A) : IO A := fun w => (a, w).

Definition bind {A B : Type} (m : IO A) (k : A -> IO B) : IO B :=
  fun w => let (a, w') := m w in k a w'.

Declare Scope io_scope.
Delimit Scope io_scope with io.

Notation "x <- m ;; k" := (bind m (fun x => k))
  (at level 61, m at next level, right associativity) : io_scope.
Notation "m ;; k" := (bind m (fun _ => k))
  (at level 61, right associativity) : io_scope.

Definition window_alert (a : Alert) : IO unit :=
  fun w => (tt, mkWorld (store_calls w) (alerts w ++ [a]) (warnings w) (ids_drawn w)).

Definition console_warn (x : Warning) : IO unit :=
  fun w => (tt, mkWorld (store_calls w) (alerts w) (warnings w ++ [x]) (ids_drawn w)).

Definition request {A : Type} (call : StoreCall) (answer : list StoreCall -> A)
  : IO A :=
  fun w => (answer (store_calls w),
            mkWorld (store_calls w ++ [call]) (alerts w) (warnings w) (ids_drawn w)).

Definition next_id (env : Env) (n : nat) : string :=
  match crypto_randomUUID env with
  | Some randomUUID => randomUUID n
  | None => Date_now_Math_random env n
  end.

Definition new_id (env : Env) : IO string :=
  fun w => (next_id env (ids_drawn w),
            mkWorld (store_calls w) (alerts w) (warnings w) (S (ids_drawn w))).

(* ----------------------------------------------------------------- *)
(** ** DB IO *)

Definition row_of_item (item : HistoryItem.t) : Row.t :=
  {| Row.id := HistoryItem.id item;
     Row.memo := HistoryItem.memo item;
     Row.base_price := HistoryItem.basePrice item;
     Row.discount_mode := HistoryItem.discountMode item;
     Row.base_discount_amount := HistoryItem.baseDiscountAmount item;
     Row.base_discount_percent := HistoryItem.baseDiscountPercent item;
     Row.extra := HistoryItem.extra item;
     Row.final := HistoryItem.final item;
     Row.refund10 := HistoryItem.refund10 item;
     Row.kream_price := HistoryItem.kreamPrice item;
     Row.kream_net := HistoryItem.kreamNet item;
     Row.poizon_price := HistoryItem.poizonPrice item;
     Row.poizon_net := HistoryItem.poizonNet item;
     Row.created_at := None |}.

Definition item_of_row (r : Row.t) : HistoryItem.t :=
  {| HistoryItem.id := Row.id r;
     HistoryItem.memo := Row.memo r;
     HistoryItem.basePrice := Row.base_price r;
     HistoryItem.discountMode := Row.discount_mode r;
     HistoryItem.baseDiscountAmount := Row.base_discount_amount r;
     HistoryItem.baseDiscountPercent := Row.base_discount_percent r;
     HistoryItem.extra := Row.extra r;
     HistoryItem.final := Row.final r;
     HistoryItem.refund10 := Row.refund10 r;
     HistoryItem.kreamPrice := Row.kream_price r;
     HistoryItem.kreamFee := None;
     HistoryItem.kreamNet := Row.kream_net r;
     HistoryItem.poizonPrice := Row.poizon_price r;
     HistoryItem.poizonFee := None;
     HistoryItem.poizonNet := Row.poizon_net r;
     HistoryItem.created_at := Row.created_at r |}.

Definition dbInsertHistory (env : Env) (item : HistoryItem.t)
  : IO (option Error) :=
  match supabase env with
  | None => ret (Some NotConfigured)
  | Some client =>
      let row := row_of_item item in
      request (InsertCall row) (fun log => insert_response client log row)
  end.

(** [{ data, error }] as [dbFetchHistory] returns it. *)
Record FetchResult : Type := mkFetchResult {
  data : list HistoryItem.t;
  error : option Error
}.

Definition dbFetchHistory (env : Env) (limit : nat) : IO FetchResult :=
  match supabase env with
  | None => ret (mkFetchResult [] (Some NotConfigured))
  | Some client =>
      (r <- request (SelectCall limit)
                    (fun log => select_response client log limit) ;;
       match response_error r with
       | Some e => ret (mkFetchResult [] (Some e))
       | None =>
           let rows := match response_data r with
                       | Some rows => rows
                       | None => []
                       end in
           ret (mkFetchResult (map item_of_row rows) None)
       end)%io
  end.

Definition dbDeleteHistory (env : Env) (id : string) : IO (option Error) :=
  match supabase env with
  | None => ret (Some NotConfigured)
  | Some client =>
      request (DeleteCall id) (fun log => delete_response client log id)
  end.

(* ----------------------------------------------------------------- *)
(** ** The component *)

(** The state variables of [OutletDiscountCalculator]. *)
Record State : Type := mkState {
  basePrice : option number;
  discountMode : DiscountMode;
  baseDiscountAmount : option number;
  baseDiscountPercent : option number;
  extra : option number;
  memo : string;
  history : list HistoryItem.t;
  kreamPrice : option number;
  poizonPrice : option number;
  loadingHistory : bool;
  kreamPriceInput : string;
  poizonPriceInput : string
}.

Definition initialState : State :=
  {| basePrice := None;
     discountMode := amount;
     baseDiscountAmount := None;
     baseDiscountPercent := None;
     extra := None;
     memo := "";
     history := [];
     kreamPrice := None;
     poizonPrice := None;
     loadingHistory := false;
     kreamPriceInput := "";
     poizonPriceInput := "" |}.

Definition setHistory (f : list HistoryItem.t -> list HistoryItem.t)
    (st : State) : State :=
  mkState (basePrice st) (discountMode st) (baseDiscountAmount st)
    (baseDiscountPercent st) (extra st) (memo st) (f (history st))
    (kreamPrice st) (poizonPrice st) (loadingHistory st)
    (kreamPriceInput st) (poizonPriceInput st).

Definition setMemo (m : string) (st : State) : State :=
  mkState (basePrice st) (discountMode st) (baseDiscountAmount st)
    (baseDiscountPercent st) (extra st) m (history st)
    (kreamPrice st) (poizonPrice st) (loadingHistory st)
    (kreamPriceInput st) (poizonPriceInput st).

Definition setLoadingHistory (b : bool) (st : State) : State :=
  mkState (basePrice st) (discountMode st) (baseDiscountAmount st)
    (baseDiscountPercent st) (extra st) (memo st) (history st)
    (kreamPrice st) (poizonPrice st) b
    (kreamPriceInput st) (poizonPriceInput st).

Definition setKream (input : string) (price : option number) (st : State)
  : State :=
  mkState (basePrice st) (discountMode st) (baseDiscountAmount st)
    (baseDiscountPercent st) (extra st) (memo st) (history st)
    price (poizonPrice st) (loadingHistory st)
    input (poizonPriceInput st).

Definition setPoizon (input : string) (price : option number) (st : State)
  : State :=
  mkState (basePrice st) (discountMode st) (baseDiscountAmount st)
    (baseDiscountPercent st) (extra st) (memo st) (history st)
    (kreamPrice st) price (loadingHistory st)
    (kreamPriceInput st) input.

(** The effect run once after the first render.  Both lines that would
    fetch and install the stored history are commented out in the source. *)
Definition initialLoad (env : Env) (st : State) : IO State :=
  match supabase env with
  | None => ret st
  | Some _ => ret (setLoadingHistory false (setLoadingHistory true st))
  end.

(** *** The derived values *)

Definition step1 (st : State) : option number := basePrice st.

Definition step2 (st : State) : number :=
  step2AfterFirstDiscount (basePrice st) (discountMode st)
    (baseDiscountAmount st) (baseDiscountPercent st).

Definition final (st : State) : number :=
  applyExtraPercent (step2 st) (extra st).

Definition refund10 (st : State) : number := simpleRefund10 (final st).

Definition afterRefund10 (st : State) : number :=
  Math_max (Num 0) (final st - refund10 st).

Definition kreamNet (st : State) : option number :=
  kreamNetFromPrice (kreamPrice st).

Definition kreamFee (st : State) : option number :=
  kreamFeeFromPrice (kreamPrice st) (kreamNet st).

Definition poizonNet (st : State) : option number :=
  poizonNetFromPrice (poizonPrice st).

Definition poizonFee (st : State) : option number :=
  poizonFeeFromPrice (poizonPrice st) (poizonNet st).

(** *** The handlers *)

Definition newItem (st : State) (id : string) : HistoryItem.t :=
  {| HistoryItem.id := id;
     HistoryItem.basePrice := basePrice st;
     HistoryItem.discountMode := discountMode st;
     HistoryItem.baseDiscountAmount :=
       match discountMode st with
       | amount =>
           Some (clamp (nullish (baseDiscountAmount st) (Num 0)) (Num 0)
                       (ToNumber (basePrice st)))
       | percent => None
       end;
     HistoryItem.baseDiscountPercent :=
       match discountMode st with
       | percent =>
           Some (clamp (nullish (baseDiscountPercent st) (Num 0)) (Num 0)
                       (Num 100))
       | amount => None
       end;
     HistoryItem.extra := clamp (ToNumber (extra st)) (Num 0) (Num 100);
     HistoryItem.memo :=
       if is_empty (trim (memo st)) then None else Some (trim (memo st));
     HistoryItem.final := final st;
     HistoryItem.refund10 := refund10 st;
     HistoryItem.kreamPrice := kreamPrice st;
     HistoryItem.kreamFee := kreamFee st;
     HistoryItem.kreamNet := kreamNet st;
     HistoryItem.poizonPrice := poizonPrice st;
     HistoryItem.poizonFee := poizonFee st;
     HistoryItem.poizonNet := poizonNet st;
     HistoryItem.created_at := None |}.

Definition saveHistory (env : Env) (st : State) : IO State :=
  let memoTrim := trim (memo st) in
  if is_empty memoTrim then
    ((if window_defined env then window_alert EmptyMemoAlert else ret tt) ;;
     ret st)%io
  else
    (id <- new_id env ;;
     let item := newItem st id in
     let st' := setMemo "" (setHistory (fun prev => item :: prev) st) in
     match supabase env with
     | Some _ =>
         e <- dbInsertHistory env item ;;
         match e with
         | Some e => console_warn (InsertFailed e) ;; ret st'
         | None => ret st'
         end
     | None => ret st'
     end)%io.

Definition id_differs (id : string) (h : HistoryItem.t) : bool :=
  negb (String.eqb (HistoryItem.id h) id).

Definition deleteHistory (env : Env) (id : string) (st : State) : IO State :=
  let st' := setHistory (filter (id_differs id)) st in
  match supabase env with
  | Some _ =>
      (e <- dbDeleteHistory env id ;;
       match e with
       | Some e => console_warn (DeleteFailed e) ;; ret st'
       | None => ret st'
       end)%io
  | None => ret st'
  end.

Definition clearHistory (st : State) : State := setHistory (fun _ => []) st.

Definition onKreamPriceChange (value : string) (st : State) : State :=
  let formatted := formatNumberInput value in
  setKream formatted (option_map number_of_N (parseNumberInput formatted)) st.

Definition onPoizonPriceChange (value : string) (st : State) : State :=
  let formatted := formatNumberInput value in
  setPoizon formatted (option_map number_of_N (parseNumberInput formatted)) st.

(** *** The margins that are displayed

    A cell shows the dash ([None]) or a margin and its percentage. *)

Definition marginCell (margin final_ : number) : number * number :=
  (margin, (margin / or_else final_ (Num 1) * Num 100)%js).

(** Results card and the chips under the price inputs. *)
Definition poizonMargin (st : State) : option (number * number) :=
  match poizonNet st with
  | Some net => Some (marginCell (net - final st + refund10 st) (final st))
  | None => None
  end.

Definition kreamMargin (st : State) : option (number * number) :=
  match kreamNet st with
  | Some net => Some (marginCell (net - final st) (final st))
  | None => None
  end.

(** Rows of the history table. *)
Definition historyKreamMargin (h : HistoryItem.t) : option (number * number) :=
  match HistoryItem.kreamNet h with
  | Some net =>
      Some (marginCell (net - HistoryItem.final h) (HistoryItem.final h))
  | None => None
  end.

Definition historyPoizonMargin (h : HistoryItem.t) : option (number * number) :=
  match HistoryItem.poizonNet h with
  | Some net =>
      Some (marginCell (net - HistoryItem.final h) (HistoryItem.final h))
  | None => None
  end.

(* ----------------------------------------------------------------- *)
(** ** Vocabulary of the specification *)

(** The clamp of the specification, on rationals. *)
Definition Qclamp (a lo hi : Q) : Q := Qmax lo (Qmin hi a).

(** [v] is the number [q]. *)
Definition is_number (v : option number) (q : Q) : bool :=
  match v with
  | Some n => (n === Num q)%js
  | None => false
  end.

(** A string made of decimal digits only. *)
Fixpoint all_digits (s : string) : bool :=
  match s with
  | "" => true
  | String c rest => is_digit c && all_digits rest
  end.

(** A configuration value that is missing, or the empty string. *)
Definition absent (v : option string) : Prop := truthy_string v = false.

(** A label with nothing but white space in it. *)
Definition blank (s : string) : bool := is_empty (trim s).

(** The worked example of the specification: base price 100000, a first
    discount of 20000 by amount, 10 percent of extra discount. *)
Definition scenario : State :=
  mkState (Some (Num 100000)) amount (Some (Num 20000)) None (Some (Num 10))
    "" [] None None false "" "".

(** The same inputs with a label and a Poizon listing price of 66000. *)
Definition scenario_listed : State :=
  mkState (Some (Num 100000)) amount (Some (Num 20000)) None (Some (Num 10))
    "shoe" [] None (Some (Num 66000)) false "" "66,000".

(** The same inputs with a label, the extra discount field never touched. *)
Definition scenario_no_extra : State :=
  mkState (Some (Num 100000)) amount (Some (Num 20000)) None None
    "shoe" [] None None false "" "".

(** Every identifier in the list was handed out by an earlier draw. *)
Definition ids_known (env : Env) (w : World) (l : list HistoryItem.t) : Prop :=
  forall h, In h l ->
    exists k, (k < ids_drawn w)%nat /\ HistoryItem.id h = next_id env k.

(** No two draws yield the same identifier. *)
Definition ids_never_repeat (env : Env) : Prop :=
  forall i j, next_id env i = next_id env j -> i = j.

(** A store call that reads the table. *)
Definition is_select (c : StoreCall) : bool :=
  match c with
  | SelectCall _ => true
  | _ => false
  end.

Definition selects (w : World) : list StoreCall :=
  filter is_select (store_calls w).

(** *** What a user can do, and the states that follow *)

Inductive Event : Type :=
| Load
| Edit (inputs : State)
| Save
| Delete (id : string)
| Clear.

(** [Edit inputs] stands for any sequence of changes to the input fields:
    every field is replaced, the history stays. *)
Definition step (env : Env) (ev : Event) (s : State * World) : State * World :=
  let (st, w) := s in
  match ev with
  | Load => initialLoad env st w
  | Edit inputs => (setHistory (fun _ => history st) inputs, w)
  | Save => saveHistory env st w
  | Delete id => deleteHistory env id st w
  | Clear => (clearHistory st, w)
  end.

Fixpoint run (env : Env) (events : list Event) (s : State * World)
  : State * World :=
  match events with
  | [] => s
  | ev :: rest => run env rest (step env ev s)
  end.

(** *** Example environments *)

Definition empty_world : World := mkWorld [] [] [] 0.

Definition stored_row : Row.t :=
  row_of_item (newItem scenario_listed "0").

(** A store that holds one row and never fails. *)
Definition working_client : SupabaseClient :=
  mkClient (fun _ _ => None)
           (fun _ _ => mkSelectResponse (Some [stored_row]) None)
           (fun _ _ => None).

(** A store that answers every request with an error. *)
Definition failing_client : SupabaseClient :=
  mkClient (fun _ _ => Some (StoreError "unreachable"))
           (fun _ _ => mkSelectResponse None (Some (StoreError "unreachable")))
           (fun _ _ => Some (StoreError "unreachable")).

(** Identifiers 0, 1, 2, ... *)
Definition counter_id (n : nat) : string := decimal (N.of_nat n).

Definition offline_env : Env :=
  mkEnv None None (fun _ _ => working_client) true (Some counter_id) counter_id.

Definition online_env : Env :=
  mkEnv (Some "https://project.example") (Some "anon-key")
        (fun _ _ => working_client) true (Some counter_id) counter_id.

Definition failing_env : Env :=
  mkEnv (Some "https://project.example") (Some "anon-key")
        (fun _ _ => failing_client) true (Some counter_id) counter_id.

(* ----------------------------------------------------------------- *)
(** ** Highlighting, and further vocabulary *)

(** The class tests of the results card: a row is shown in red when its
    test holds.  The settlement rows test [net - final < 0]; the Poizon
    margin row tests [net - final + refund10 < 0]. *)
Definition poizonNetRed (st : State) : bool :=
  match poizonNet st with
  | Some net => (net - final st <? Num 0)%js
  | None => false
  end.

Definition poizonMarginRed (st : State) : bool :=
  match poizonNet st with
  | Some net => (net - final st + refund10 st <? Num 0)%js
  | None => false
  end.

Definition kreamNetRed (st : State) : bool :=
  match kreamNet st with
  | Some net => (net - final st <? Num 0)%js
  | None => false
  end.

(** A string of white space only. *)
Fixpoint all_white_space (s : string) : bool :=
  match s with
  | "" => true
  | String c rest => is_white_space c && all_white_space rest
  end.

(** What of a record is written to a row: everything but the two fees and
    the time of creation. *)
Definition persisted (item : HistoryItem.t) : HistoryItem.t :=
  {| HistoryItem.id := HistoryItem.id item;
     HistoryItem.basePrice := HistoryItem.basePrice item;
     HistoryItem.discountMode := HistoryItem.discountMode item;
     HistoryItem.baseDiscountAmount := HistoryItem.baseDiscountAmount item;
     HistoryItem.baseDiscountPercent := HistoryItem.baseDiscountPercent item;
     HistoryItem.extra := HistoryItem.extra item;
     HistoryItem.memo := HistoryItem.memo item;
     HistoryItem.final := HistoryItem.final item;
     HistoryItem.refund10 := HistoryItem.refund10 item;
     HistoryItem.kreamPrice := HistoryItem.kreamPrice item;
     HistoryItem.kreamFee := None;
     HistoryItem.kreamNet := HistoryItem.kreamNet item;
     HistoryItem.poizonPrice := HistoryItem.poizonPrice item;
     HistoryItem.poizonFee := None;
     HistoryItem.poizonNet := HistoryItem.poizonNet item;
     HistoryItem.created_at := None |}.

(** *** A store that behaves as a table

    Every insert and delete succeeds; a select returns the rows inserted
    and not deleted since, newest first, each stamped with a time of
    creation by the store. *)
Definition stamped (time : string) (r : Row.t) : Row.t :=
  match r with
  | Row.Build id memo_ base_price discount_mode base_discount_amount
      base_discount_percent extra_ final_ refund10_ kream_price kream_net
      poizon_price poizon_net _ =>
      Row.Build id memo_ base_price discount_mode base_discount_amount
        base_discount_percent extra_ final_ refund10_ kream_price kream_net
        poizon_price poizon_net (Some time)
  end.

Definition row_id_differs (id : string) (r : Row.t) : bool :=
  negb (String.eqb (Row.id r) id).

Definition apply_call (t : list Row.t) (c : StoreCall) : list Row.t :=
  match c with
  | InsertCall r => stamped (decimal (N.of_nat (List.length t))) r :: t
  | DeleteCall id => filter (row_id_differs id) t
  | SelectCall _ => t
  end.

Definition table (log : list StoreCall) : list Row.t :=
  fold_left apply_call log [].

Definition table_client : SupabaseClient :=
  mkClient (fun _ _ => None)
           (fun log limit => mkSelectResponse (Some (firstn limit (table log))) None)
           (fun _ _ => None).

Definition table_env : Env :=
  mkEnv (Some "https://project.example") (Some "anon-key")
        (fun _ _ => table_client) true (Some counter_id) counter_id.

Definition is_clear (ev : Event) : bool :=
  match ev with
  | Clear => true
  | _ => false
  end.

(** The rows of the store and the records of the history agree, in order,
    on every field that is written to a row. *)
Definition mirrored (s : State * World) : Prop :=
  map (fun r => persisted (item_of_row r)) (table (store_calls (snd s)))
  = map persisted (history (fst s)).

(** A record whose derived fields follow from its stored inputs. *)
Definition record_consistent (h : HistoryItem.t) : Prop :=
  HistoryItem.final h
  =n= applyExtraPercent
        (step2AfterFirstDiscount
           (HistoryItem.basePrice h) (HistoryItem.discountMode h)
           (HistoryItem.baseDiscountAmount h)
           (HistoryItem.baseDiscountPercent h))
        (Some (HistoryItem.extra h))
  /\ HistoryItem.refund10 h = simpleRefund10 (HistoryItem.final h)
  /\ HistoryItem.kreamNet h = kreamNetFromPrice (HistoryItem.kreamPrice h)
  /\ HistoryItem.kreamFee h
     = kreamFeeFromPrice (HistoryItem.kreamPrice h) (HistoryItem.kreamNet h)
  /\ HistoryItem.poizonNet h = poizonNetFromPrice (HistoryItem.poizonPrice h)
  /\ HistoryItem.poizonFee h
     = poizonFeeFromPrice (HistoryItem.poizonPrice h)
         (HistoryItem.poizonNet h)
  /\ exists m, HistoryItem.memo h = Some m /\ all_white_space m = false.

(* ================================================================= *)
(** * Part II.  Properties *)
(* ================================================================= *)

(* ----------------------------------------------------------------- *)
(** ** Numbers *)

Local Open Scope Q_scope.

Lemma Qle_bool_cases (a b : Q) :
  (Qle_bool a b = true /\ a <= b) \/ (Qle_bool a b = false /\ b < a).
Proof.
  destruct (Qle_bool a b) eqn:E.
  - left. split; [reflexivity | now apply Qle_bool_iff].
  - right. split; [reflexivity |].
    apply Qnot_le_lt. intro K. apply Qle_bool_iff in K. congruence.
Qed.

Lemma Qeq_bool_cases (a b : Q) :
  (Qeq_bool a b = true /\ a == b) \/ (Qeq_bool a b = false /\ ~ a == b).
Proof.
  destruct (Qeq_bool a b) eqn:E.
  - left. split; [reflexivity | now apply Qeq_bool_iff].
  - right. split; [reflexivity |].
    intro K. apply Qeq_bool_iff in K. congruence.
Qed.

(** Case analysis on every comparison of rationals in sight. *)
Ltac qbool :=
  repeat match goal with
  | H : context [Qle_bool _ _] |- _ => revert H
  | H : context [Qeq_bool _ _] |- _ => revert H
  | |- context [Qle_bool ?a ?b] =>
      let E := fresh in
      let L := fresh in
      destruct (Qle_bool_cases a b) as [[E L] | [E L]]; rewrite !E; clear E
  | |- context [Qeq_bool ?a ?b] =>
      let E := fresh in
      let L := fresh in
      destruct (Qeq_bool_cases a b) as [[E L] | [E L]]; rewrite !E; clear E
  end;
  intros.

(** Replace every [Qmax] and [Qmin] by a variable with its specification. *)
Ltac qminmax :=
  repeat match goal with
  | |- context [Qmax ?a ?b] =>
      let m := fresh "m" in
      pose proof (Q.max_spec a b); set (m := Qmax a b) in *; clearbody m
  | |- context [Qmin ?a ?b] =>
      let m := fresh "m" in
      pose proof (Q.min_spec a b); set (m := Qmin a b) in *; clearbody m
  | _ : context [Qmax ?a ?b] |- _ =>
      let m := fresh "m" in
      pose proof (Q.max_spec a b); set (m := Qmax a b) in *; clearbody m
  | _ : context [Qmin ?a ?b] |- _ =>
      let m := fresh "m" in
      pose proof (Q.min_spec a b); set (m := Qmin a b) in *; clearbody m
  end.

(** Unfold the embedding down to the rationals, and no further. *)
Ltac js_simpl :=
  cbn -[Qeq Qle Qlt Qplus Qminus Qmult Qdiv Qinv Qopp Qmax Qmin
        Qle_bool Qeq_bool inject_Z] in *.

(** Goals and hypotheses [a =n= b] between two rationals, as [==]. *)
Ltac same_inv :=
  repeat match goal with
  | H : Num _ =n= Num _ |- _ => inversion H; subst; clear H
  | H : NaN =n= Num _ |- _ => inversion H
  | H : Num _ =n= NaN |- _ => inversion H
  | H : NaN =n= NaN |- _ => clear H
  end.

Ltac same :=
  js_simpl; same_inv; qbool; js_simpl; try constructor; qminmax; try lra.

Lemma same_number_refl (a : number) : a =n= a.
Proof. destruct a; constructor; reflexivity. Qed.

Lemma same_number_sym (a b : number) : a =n= b -> b =n= a.
Proof. intros [|x y H]; constructor; now symmetry. Qed.

Lemma same_number_trans (a b c : number) : a =n= b -> b =n= c -> a =n= c.
Proof.
  intros [|x y H] H'; [exact H' |].
  inversion H'; subst. constructor. now rewrite H.
Qed.

#[global] Instance same_number_equiv : Equivalence same_number.
Proof.
  split.
  - exact same_number_refl.
  - exact same_number_sym.
  - exact same_number_trans.
Qed.

#[global] Instance add_proper : Proper (same_number ==> same_number ==> same_number) add.
Proof. intros a a' [|x y H] b b' [|u v K]; same. Qed.

#[global] Instance sub_proper : Proper (same_number ==> same_number ==> same_number) sub.
Proof. intros a a' [|x y H] b b' [|u v K]; same. Qed.

#[global] Instance mul_proper : Proper (same_number ==> same_number ==> same_number) mul.
Proof. intros a a' [|x y H] b b' [|u v K]; same. now rewrite H, K. Qed.

#[global] Instance div_proper : Proper (same_number ==> same_number ==> same_number) div.
Proof. intros a a' [|x y H] b b' [|u v K]; same. now rewrite H, K. Qed.

#[global] Instance Math_max_proper :
  Proper (same_number ==> same_number ==> same_number) Math_max.
Proof. intros a a' [|x y H] b b' [|u v K]; same. Qed.

#[global] Instance Math_min_proper :
  Proper (same_number ==> same_number ==> same_number) Math_min.
Proof. intros a a' [|x y H] b b' [|u v K]; same. Qed.

Lemma same_Num_iff (x y : Q) : Num x =n= Num y <-> x == y.
Proof. split; intro H; [now inversion H | now constructor]. Qed.

Lemma strict_eq_same (a b : number) :
  (a === b)%js = true <-> a =n= b /\ isNaN a = false.
Proof.
  destruct a, b; js_simpl.
  - split; [discriminate | intros [_ ?]; discriminate].
  - split; [discriminate | intros [H _]; inversion H].
  - split; [discriminate | intros [H _]; inversion H].
  - rewrite Qeq_bool_iff, same_Num_iff. tauto.
Qed.

Lemma Math_max_Num (x y : Q) : Math_max (Num x) (Num y) =n= Num (Qmax x y).
Proof. same. Qed.

Lemma Math_min_Num (x y : Q) : Math_min (Num x) (Num y) =n= Num (Qmin x y).
Proof. same. Qed.

(** The source's clamp is the clamp of the specification as soon as the
    interval is not empty. *)
Lemma clamp_Qclamp (n lo hi : Q) :
  lo <= hi -> clamp (Num n) (Num lo) (Num hi) =n= Num (Qclamp n lo hi).
Proof. intro H. unfold Qclamp. same. Qed.

Lemma clamp_inside (n lo hi : Q) :
  lo <= n <= hi -> clamp (Num n) (Num lo) (Num hi) =n= Num n.
Proof. intro H. same. Qed.

Lemma clamp_within (n lo hi : Q) :
  lo <= hi -> within (clamp (Num n) (Num lo) (Num hi)) (Num lo) (Num hi) = true.
Proof.
  intro H. unfold within, clamp. js_simpl.
  apply andb_true_iff; split; apply Qle_bool_iff; qbool; lra.
Qed.

Lemma clamp_NaN (lo hi : number) : clamp NaN lo hi = NaN.
Proof. destruct lo, hi; reflexivity. Qed.

(* ----------------------------------------------------------------- *)
(** ** The pricing engine *)



(** The three branches of the Poizon settlement. *)
Lemma poizonNet_low (p : Q) :
  p <= 150000 -> poizonNetFromPrice (Some (Num p)) = Some (Num (p - 15000)).
Proof.
  intro H. unfold poizonNetFromPrice, leb.
  apply Qle_bool_iff in H. now rewrite H.
Qed.

Lemma poizonNet_high (p : Q) :
  450000 <= p -> poizonNetFromPrice (Some (Num p)) = Some (Num (p - 45000)).
Proof.
  intro H. unfold poizonNetFromPrice, geb, leb.
  destruct (Qle_bool_cases p 150000) as [[E L] | [E L]]; [lra |].
  rewrite E. apply Qle_bool_iff in H. now rewrite H.
Qed.

Lemma poizonNet_middle (p : Q) :
  150000 < p < 450000 ->
  poizonNetFromPrice (Some (Num p)) = Some (Num (p * 0.9)).
Proof.
  intro H. unfold poizonNetFromPrice, geb, leb.
  destruct (Qle_bool_cases p 150000) as [[E L] | [E L]]; [lra |].
  rewrite E.
  destruct (Qle_bool_cases 450000 p) as [[E' L'] | [E' L']]; [lra |].
  now rewrite E'.
Qed.

Local Open Scope float_scope.
Local Set Warnings "-inexact-float".





Local Close Scope float_scope.

(* ----------------------------------------------------------------- *)
(** ** Margins *)

(** The divisor [final || 1] of a margin percentage is a number other than
    zero. *)
Lemma margin_divisor_nonzero (final_ : number) :
  truthy (or_else final_ (Num 1)) = true.
Proof.
  unfold or_else. destruct (truthy final_) eqn:E; [exact E | reflexivity].
Qed.

Lemma margin_divisor_default (final_ : number) :
  final_ = NaN \/ final_ =n= Num 0 -> or_else final_ (Num 1) = Num 1.
Proof.
  intros [-> | H]; [reflexivity |].
  inversion H as [| x y E]; subst. unfold or_else, truthy.
  apply Qeq_bool_iff in E. now rewrite E.
Qed.

(** Results card: Kream shows [net - final], Poizon [net - final + tax]. *)
Lemma results_margins (st : State) (net : number) :
  (kreamNet st = Some net ->
   kreamMargin st
   = Some ((net - final st)%js,
           ((net - final st) / or_else (final st) (Num 1) * Num 100)%js))
  /\ (poizonNet st = Some net ->
      poizonMargin st
      = Some ((net - final st + refund10 st)%js,
              ((net - final st + refund10 st)
               / or_else (final st) (Num 1) * Num 100)%js)).
Proof.
  split; intro H; [unfold kreamMargin | unfold poizonMargin];
    now rewrite H.
Qed.

(** History rows: both platforms show [net - final]. *)
Lemma history_margins (h : HistoryItem.t) (net : number) :
  (HistoryItem.kreamNet h = Some net ->
   historyKreamMargin h
   = Some ((net - HistoryItem.final h)%js,
           ((net - HistoryItem.final h)
            / or_else (HistoryItem.final h) (Num 1) * Num 100)%js))
  /\ (HistoryItem.poizonNet h = Some net ->
      historyPoizonMargin h
      = Some ((net - HistoryItem.final h)%js,
              ((net - HistoryItem.final h)
               / or_else (HistoryItem.final h) (Num 1) * Num 100)%js)).
Proof.
  split; intro H; [unfold historyKreamMargin | unfold historyPoizonMargin];
    now rewrite H.
Qed.

(** C3.  The record saved from the worked example with a Poizon price of
    66000 has net 51000, final price 72000 and tax 7200.  The results card
    shows the Poizon margin [net - final + tax = -13800]; the row of the
    history table shows [net - final = -21000] for the same record: the tax
    is left out there. *)
Theorem history_row_poizon_margin_omits_tax :
  is_number (HistoryItem.poizonNet (newItem scenario_listed "id")) 51000
    = true
  /\ is_number (option_map fst (poizonMargin scenario_listed)) (-13800) = true
  /\ is_number
       (option_map fst (historyPoizonMargin (newItem scenario_listed "id")))
       (-21000) = true
  /\ is_number
       (option_map fst (historyPoizonMargin (newItem scenario_listed "id")))
       (-13800) = false.
Proof. repeat split; vm_compute; reflexivity. Qed.

(* ----------------------------------------------------------------- *)
(** ** Unknown and missing inputs *)

(** Without a base price every stage yields [NaN], which is displayed as
    the dash. *)
Lemma unknown_base_price_propagates
    (mode : DiscountMode) (amt pct extra_ : option number) :
  let s2 := step2AfterFirstDiscount None mode amt pct in
  let fin := applyExtraPercent s2 extra_ in
  s2 = NaN /\ fin = NaN /\ simpleRefund10 fin = NaN
  /\ Math_max (Num 0) (fin - simpleRefund10 fin) = NaN
  /\ toKrw (Some fin) = Dash /\ toKrw None = Dash.
Proof.
  assert (E : step2AfterFirstDiscount None mode amt pct = NaN).
  { destruct mode, amt as [[|a]|], pct as [[|b]|]; reflexivity. }
  cbv zeta. rewrite E. repeat split.
Qed.

(** Numbers in, numbers out: with a base price, an extra percent and
    whatever first discount, no stage yields [NaN]. *)
Lemma defined_inputs_give_numbers
    (B e : Q) (mode : DiscountMode) (amt pct : option Q) :
  let s2 := step2AfterFirstDiscount (Some (Num B)) mode
              (option_map Num amt) (option_map Num pct) in
  let fin := applyExtraPercent s2 (Some (Num e)) in
  isNaN s2 = false /\ isNaN fin = false
  /\ isNaN (simpleRefund10 fin) = false
  /\ isNaN (Math_max (Num 0) (fin - simpleRefund10 fin)) = false.
Proof.
  destruct mode, amt as [a|], pct as [b|]; js_simpl; qbool; js_simpl;
    repeat split; lra.
Qed.

(** C5.  An extra discount percent that is missing is not replaced by 0:
    whatever the price, [applyExtraPercent] yields [NaN], on rationals and
    on binary64 numbers alike.  With base price
    100000 and a first discount of 20000 the discounted price is 80000 and
    the final price is [NaN], displayed as the dash; the first discount, in
    contrast, reads a missing amount or percent as 0. *)
Theorem missing_extra_percent_is_not_defaulted :
  (forall price, applyExtraPercent price None = NaN)
  /\ PrimFloat.is_nan (Binary64.applyExtraPercent 80000%float None) = true
  /\ (step2 scenario_no_extra === Num 80000)%js = true
  /\ final scenario_no_extra = NaN
  /\ refund10 scenario_no_extra = NaN
  /\ afterRefund10 scenario_no_extra = NaN
  /\ toKrw (Some (final scenario_no_extra)) = Dash
  /\ (step2AfterFirstDiscount (Some (Num 100000)) amount None None
       === Num 100000)%js = true
  /\ (step2AfterFirstDiscount (Some (Num 100000)) percent None None
       === Num 100000)%js = true.
Proof.
  split.
  - intros [|q]; reflexivity.
  - repeat split; vm_compute; reflexivity.
Qed.

(* ----------------------------------------------------------------- *)
(** ** The number formatter for inputs *)

Local Open Scope string_scope.

Lemma is_digit_cases (c : ascii) :
  is_digit c = true ->
  c = "0"%char \/ c = "1"%char \/ c = "2"%char \/ c = "3"%char
  \/ c = "4"%char \/ c = "5"%char \/ c = "6"%char \/ c = "7"%char
  \/ c = "8"%char \/ c = "9"%char.
Proof.
  destruct c as [[] [] [] [] [] [] [] []]; cbv; intro H;
    try discriminate H; tauto.
Qed.

Lemma strip_non_digits_filter (s : string) :
  strip_non_digits s
  = string_of_list_ascii (filter is_digit (list_ascii_of_string s)).
Proof.
  induction s as [| c rest IH]; [reflexivity |].
  cbn [strip_non_digits list_ascii_of_string filter].
  destruct (is_digit c); cbn [string_of_list_ascii]; now rewrite IH.
Qed.

Lemma strip_non_digits_all_digits (s : string) :
  all_digits (strip_non_digits s) = true.
Proof.
  induction s as [| c rest IH]; [reflexivity |].
  cbn [strip_non_digits]. destruct (is_digit c) eqn:E; [| exact IH].
  cbn [all_digits]. now rewrite E.
Qed.

Lemma strip_non_digits_id (s : string) :
  all_digits s = true -> strip_non_digits s = s.
Proof.
  induction s as [| c rest IH]; [reflexivity |].
  cbn [all_digits strip_non_digits]. intro H.
  apply andb_true_iff in H as [Hc Hr]. rewrite Hc. now rewrite IH.
Qed.

Lemma string_of_uint_all_digits (d : Decimal.uint) :
  all_digits (DecimalString.NilEmpty.string_of_uint d) = true.
Proof. induction d; cbn; auto. Qed.

Lemma all_digits_uint (s : string) :
  all_digits s = true ->
  exists d, DecimalString.NilEmpty.uint_of_string s = Some d
            /\ DecimalString.NilEmpty.string_of_uint d = s.
Proof.
  induction s as [| c rest IH].
  - intros _. exists Decimal.Nil. now split.
  - cbn [all_digits]. intro H. apply andb_true_iff in H as [Hc Hr].
    destruct (IH Hr) as (d & Hd & Hs).
    cbn [DecimalString.NilEmpty.uint_of_string]. rewrite Hd.
    destruct (is_digit_cases c Hc)
      as [-> | [-> | [-> | [-> | [-> | [-> | [-> | [-> | [-> | ->]]]]]]]]];
      eexists; (split; [reflexivity | cbn; now rewrite Hs]).
Qed.

(** Reading digits from the left computes the number the standard library
    reads from the same digits. *)
Lemma digits_value_uint (d : Decimal.uint) (acc : N) :
  digits_value (DecimalString.NilEmpty.string_of_uint d) acc
  = match acc with
    | N0 => N.of_uint d
    | Npos p => Npos (Pos.of_uint_acc d p)
    end.
Proof.
  revert acc.
  induction d as [| d IH | d IH | d IH | d IH | d IH | d IH | d IH | d IH
                  | d IH | d IH];
    intro acc;
    cbn [DecimalString.NilEmpty.string_of_uint digits_value];
    try rewrite IH;
    (destruct acc as [| p]; [reflexivity |]);
    cbn [Pos.of_uint_acc];
    try reflexivity;
    match goal with
    | |- match ?e with _ => _ end = N.pos (Pos.of_uint_acc _ ?q) =>
        replace e with (N.pos q)
          by (match goal with
              | |- context [digit_value ?c] =>
                  let v := eval vm_compute in (digit_value c) in
                  change (digit_value c) with v
              end; lia)
    end;
    reflexivity.
Qed.

Lemma Number_of_digits_uint (d : Decimal.uint) :
  Number_of_digits (DecimalString.NilEmpty.string_of_uint d) = N.of_uint d.
Proof. unfold Number_of_digits. now rewrite digits_value_uint. Qed.

Lemma decimal_NilEmpty (n : N) :
  decimal n = DecimalString.NilEmpty.string_of_uint (N.to_uint n).
Proof.
  unfold decimal, DecimalString.NilZero.string_of_uint.
  destruct (N.to_uint n) eqn:E; try reflexivity.
  destruct n; [discriminate E |].
  now apply DecimalPos.Unsigned.to_uint_nonnil in E.
Qed.

Lemma decimal_all_digits (n : N) : all_digits (decimal n) = true.
Proof. rewrite decimal_NilEmpty. apply string_of_uint_all_digits. Qed.

Lemma decimal_not_empty (n : N) : is_empty (decimal n) = false.
Proof.
  rewrite decimal_NilEmpty.
  destruct (N.to_uint n) eqn:E; try reflexivity.
  destruct n; [discriminate E |].
  now apply DecimalPos.Unsigned.to_uint_nonnil in E.
Qed.

Lemma Number_of_decimal (n : N) : Number_of_digits (decimal n) = n.
Proof.
  rewrite decimal_NilEmpty, Number_of_digits_uint.
  apply DecimalN.Unsigned.of_to.
Qed.

(** The commas of the grouping are the only characters it adds. *)
Lemma strip_non_digits_group3 (s : string) :
  strip_non_digits (group3 s) = strip_non_digits s.
Proof.
  induction s as [| c rest IH]; [reflexivity |].
  cbn [group3].
  destruct (negb (length rest =? 0)%nat && (length rest mod 3 =? 0)%nat);
    cbn [strip_non_digits]; destruct (is_digit c); cbn; now rewrite IH.
Qed.

Lemma parseNumberInput_decimal (n : N) : parseNumberInput (decimal n) = Some n.
Proof.
  unfold parseNumberInput.
  rewrite (strip_non_digits_id _ (decimal_all_digits n)).
  now rewrite decimal_not_empty, Number_of_decimal.
Qed.

(** Formatting an input does not change what is parsed from it. *)
Lemma parse_formatNumberInput (s : string) :
  parseNumberInput (formatNumberInput s) = parseNumberInput s.
Proof.
  unfold formatNumberInput, parseNumberInput at 2.
  destruct (is_empty (strip_non_digits s)) eqn:E; [reflexivity |].
  unfold parseNumberInput, Intl_NumberFormat_format.
  rewrite strip_non_digits_group3.
  rewrite (strip_non_digits_id _ (decimal_all_digits _)).
  now rewrite decimal_not_empty, Number_of_decimal.
Qed.

Lemma Number_toString_small (n : N) :
  (n < 10 ^ 21)%N -> Number_toString n = decimal n.
Proof.
  intro H. unfold Number_toString.
  apply N.ltb_lt in H. now rewrite H.
Qed.




(* ----------------------------------------------------------------- *)
(** ** The history store *)

Local Open Scope list_scope.

Lemma supabase_absent (env : Env) :
  absent (SUPABASE_URL env) \/ absent (SUPABASE_ANON_KEY env) ->
  supabase env = None.
Proof.
  unfold absent, supabase.
  destruct (SUPABASE_URL env) as [url |], (SUPABASE_ANON_KEY env) as [key |];
    try reflexivity.
  intros [H | H]; rewrite H; [reflexivity | now rewrite andb_false_r].
Qed.

(** C9.  When one of the two configuration values is absent, insert, list
    and delete each return the "not configured" error and leave the world,
    in particular the log of store requests, as it was; and whatever the
    configuration, a list that ends with an error carries no records. *)
Theorem store_degrades_gracefully (env : Env) (w : World) :
  (absent (SUPABASE_URL env) \/ absent (SUPABASE_ANON_KEY env) ->
   (forall item, dbInsertHistory env item w = (Some NotConfigured, w))
   /\ (forall limit,
        dbFetchHistory env limit w
        = (mkFetchResult [] (Some NotConfigured), w))
   /\ (forall id, dbDeleteHistory env id w = (Some NotConfigured, w)))
  /\ (forall limit e,
        error (fst (dbFetchHistory env limit w)) = Some e ->
        data (fst (dbFetchHistory env limit w)) = []).
Proof.
  split.
  - intro H. apply supabase_absent in H.
    unfold dbInsertHistory, dbFetchHistory, dbDeleteHistory.
    rewrite H. repeat split.
  - intros limit e. unfold dbFetchHistory.
    destruct (supabase env) as [client |]; [| reflexivity].
    unfold bind, request.
    destruct (response_error (select_response client (store_calls w) limit));
      [reflexivity | discriminate].
Qed.

Lemma store_degrades_gracefully_witness :
  dbInsertHistory offline_env (newItem scenario_listed "0") empty_world
  = (Some NotConfigured, empty_world)
  /\ dbFetchHistory offline_env 50 empty_world
     = (mkFetchResult [] (Some NotConfigured), empty_world)
  /\ dbDeleteHistory offline_env "0" empty_world
     = (Some NotConfigured, empty_world)
  /\ data (fst (dbFetchHistory failing_env 50 empty_world)) = [].
Proof.
  destruct (store_degrades_gracefully offline_env empty_world) as [H _].
  destruct H as (Hi & Hf & Hd); [left; reflexivity |].
  destruct (store_degrades_gracefully failing_env empty_world) as [_ H].
  split; [apply Hi | split; [apply Hf | split; [apply Hd |]]].
  apply (H 50%nat (StoreError "unreachable")). reflexivity.
Defined.

Lemma initialLoad_world (env : Env) (st : State) (w : World) :
  snd (initialLoad env st w) = w
  /\ history (fst (initialLoad env st w)) = history st.
Proof.
  unfold initialLoad. destruct (supabase env); split; reflexivity.
Qed.

Lemma saveHistory_selects (env : Env) (st : State) (w : World) :
  selects (snd (saveHistory env st w)) = selects w.
Proof.
  unfold saveHistory.
  destruct (is_empty (trim (memo st))).
  - destruct (window_defined env); reflexivity.
  - unfold bind, new_id, dbInsertHistory.
    destruct (supabase env) as [client |]; [| reflexivity].
    unfold request. cbn [fst snd].
    match goal with
    | |- context [insert_response ?c ?l ?r] =>
        destruct (insert_response c l r)
    end; unfold selects; cbn [snd store_calls console_warn ret];
      rewrite filter_app; cbn; now rewrite app_nil_r.
Qed.

Lemma deleteHistory_selects (env : Env) (id : string) (st : State) (w : World) :
  selects (snd (deleteHistory env id st w)) = selects w.
Proof.
  unfold deleteHistory, dbDeleteHistory.
  destruct (supabase env) as [client |]; [| reflexivity].
  unfold bind, request.
  destruct (delete_response client (store_calls w) id);
    unfold selects; cbn [snd store_calls console_warn ret];
    rewrite filter_app; cbn; now rewrite app_nil_r.
Qed.

(** C8.  The effect run at initial load makes no request to the store and
    leaves the history as it was, whatever the configuration; no handler
    ever reads the table.  With a configured store that holds one record,
    [dbFetchHistory] would return that record, and the history after the
    initial load is empty. *)
Theorem initial_load_never_reads_store :
  (forall env st w,
      snd (initialLoad env st w) = w
      /\ history (fst (initialLoad env st w)) = history st)
  /\ (forall env events s,
      selects (snd (run env events s)) = selects (snd s))
  /\ data (fst (dbFetchHistory online_env 100 empty_world))
     = [item_of_row stored_row]
  /\ history (fst (initialLoad online_env initialState empty_world)) = []
  /\ store_calls (snd (initialLoad online_env initialState empty_world)) = [].
Proof.
  split; [exact initialLoad_world | split; [| repeat split]].
  intros env events. induction events as [| ev rest IH]; [reflexivity |].
  intros [st w]. cbn [run]. rewrite IH.
  destruct ev; cbn [step snd].
  - now rewrite (proj1 (initialLoad_world env st w)).
  - reflexivity.
  - apply saveHistory_selects.
  - apply deleteHistory_selects.
  - reflexivity.
Qed.

(* ----------------------------------------------------------------- *)
(** ** Saving to the history *)

Lemma saveHistory_blank (env : Env) (st : State) (w : World) :
  blank (memo st) = true ->
  saveHistory env st w
  = (st, if window_defined env
         then mkWorld (store_calls w) (alerts w ++ [EmptyMemoAlert])
                      (warnings w) (ids_drawn w)
         else w).
Proof.
  unfold blank, saveHistory. intro H. rewrite H.
  destruct (window_defined env); reflexivity.
Qed.

Lemma saveHistory_labelled (env : Env) (st : State) (w : World) :
  blank (memo st) = false ->
  let item := newItem st (next_id env (ids_drawn w)) in
  fst (saveHistory env st w)
  = setMemo "" (setHistory (fun prev => item :: prev) st)
  /\ ids_drawn (snd (saveHistory env st w)) = S (ids_drawn w)
  /\ alerts (snd (saveHistory env st w)) = alerts w
  /\ store_calls (snd (saveHistory env st w))
     = store_calls w
       ++ match supabase env with
          | Some _ => [InsertCall (row_of_item item)]
          | None => []
          end.
Proof.
  unfold blank, saveHistory. intro H. rewrite H. cbv zeta.
  unfold bind, new_id, dbInsertHistory.
  destruct (supabase env) as [client |].
  - unfold request. cbn [fst snd].
    match goal with
    | |- context [insert_response ?c ?l ?r] =>
        destruct (insert_response c l r)
    end; repeat split.
  - cbn. rewrite app_nil_r. repeat split.
Qed.

Lemma fresh_id_not_in_history (env : Env) (w : World) (l : list HistoryItem.t) :
  ids_never_repeat env -> ids_known env w l ->
  ~ In (next_id env (ids_drawn w)) (map HistoryItem.id l).
Proof.
  intros Hinj Hknown Hin.
  apply in_map_iff in Hin as (h & Hid & Hh).
  destruct (Hknown h Hh) as (k & Hk & E).
  rewrite E in Hid. apply Hinj in Hid. lia.
Qed.

Lemma save_history_labelled_ids (env : Env) (st : State) (w : World) :
  blank (memo st) = false ->
  ids_never_repeat env -> ids_known env w (history st) ->
  history (fst (saveHistory env st w))
  = newItem st (next_id env (ids_drawn w)) :: history st
  /\ ~ In (next_id env (ids_drawn w)) (map HistoryItem.id (history st))
  /\ ids_known env (snd (saveHistory env st w))
       (history (fst (saveHistory env st w))).
Proof.
  intros Hb Hinj Hknown.
  destruct (saveHistory_labelled env st w Hb) as (Hst & Hids & _).
  rewrite Hst. cbn [history setMemo setHistory].
  split; [reflexivity | split; [now apply fresh_id_not_in_history |]].
  intros h [<- | Hh].
  - exists (ids_drawn w). rewrite Hids. split; [lia | reflexivity].
  - destruct (Hknown h Hh) as (k & Hk & E).
    exists k. rewrite Hids. split; [lia | exact E].
Qed.


Lemma counter_id_injective : ids_never_repeat online_env.
Proof.
  intros i j H. cbn in H. unfold counter_id in H.
  apply (f_equal Number_of_digits) in H.
  rewrite !Number_of_decimal in H. now apply Nat2N.inj.
Defined.



(** *** The identifiers of the history

    From the first render on, whatever the user does, the records of the
    history have distinct identifiers, as long as no two draws give the
    same identifier. *)

Lemma deleteHistory_state (env : Env) (id : string) (st : State) (w : World) :
  history (fst (deleteHistory env id st w))
  = filter (id_differs id) (history st)
  /\ ids_drawn (snd (deleteHistory env id st w)) = ids_drawn w.
Proof.
  unfold deleteHistory, dbDeleteHistory.
  destruct (supabase env) as [client |]; [| split; reflexivity].
  unfold bind, request.
  destruct (delete_response client (store_calls w) id); split; reflexivity.
Qed.

Lemma NoDup_map_filter (f : HistoryItem.t -> bool) (l : list HistoryItem.t) :
  NoDup (map HistoryItem.id l) -> NoDup (map HistoryItem.id (filter f l)).
Proof.
  induction l as [| h rest IH]; [intros _; constructor |].
  cbn [map filter]. intro H. inversion H as [| x xs Hx Hrest]; subst.
  destruct (f h); [| now apply IH].
  cbn [map]. constructor; [| now apply IH].
  intro Hin. apply Hx.
  apply in_map_iff in Hin as (h' & E & Hh').
  apply filter_In in Hh' as [Hh' _].
  apply in_map_iff. now exists h'.
Qed.

(** X20.  The records of the history have pairwise distinct identifiers
    after any sequence of loads, edits, saves, deletes and clears from the
    first render, as long as no two draws give the same identifier. *)
Theorem history_ids_distinct (env : Env) (events : list Event) (w : World) :
  ids_never_repeat env ->
  NoDup (map HistoryItem.id (history (fst (run env events (initialState, w))))).
Proof.
  intro Hinj.
  assert (inv : forall evs s,
    NoDup (map HistoryItem.id (history (fst s)))
    /\ ids_known env (snd s) (history (fst s)) ->
    NoDup (map HistoryItem.id (history (fst (run env evs s))))).
  { induction evs as [| ev rest IH]; intros [st w0] [Hnd Hk];
      cbn [fst snd] in *; [exact Hnd |].
    cbn [run]. apply IH. destruct ev; cbn [step].
    - destruct (initialLoad_world env st w0) as [Hw Hh].
      rewrite Hw, Hh. now split.
    - cbn [fst snd history setHistory]. now split.
    - destruct (blank (memo st)) eqn:Hb.
      + rewrite (saveHistory_blank env st w0 Hb). cbn [fst snd].
        split; [exact Hnd |].
        destruct (window_defined env); exact Hk.
      + destruct (save_history_labelled_ids env st w0 Hb Hinj Hk)
          as (Hh & Hfresh & Hk').
        split; [| exact Hk'].
        rewrite Hh. cbn [map]. constructor; assumption.
    - destruct (deleteHistory_state env id st w0) as [Hh Hd].
      rewrite Hh. split; [now apply NoDup_map_filter |].
      intros h Hin. apply filter_In in Hin as [Hin _].
      destruct (Hk h Hin) as (k & Hlt & E).
      exists k. rewrite Hd. now split.
    - cbn [fst snd history clearHistory setHistory].
      split; [constructor | intros h []]. }
  apply inv. cbn. split; [constructor | intros h []].
Qed.

(* ----------------------------------------------------------------- *)
(** ** The discount fields of a saved record *)

Local Open Scope Q_scope.

(** Only the field of the active mode is stored. *)
Lemma saved_discount_fields (st : State) (id : string) :
  (discountMode st = amount ->
   HistoryItem.baseDiscountPercent (newItem st id) = None
   /\ HistoryItem.baseDiscountAmount (newItem st id)
      = Some (clamp (nullish (baseDiscountAmount st) (Num 0)) (Num 0)
                    (ToNumber (basePrice st))))
  /\ (discountMode st = percent ->
      HistoryItem.baseDiscountAmount (newItem st id) = None
      /\ HistoryItem.baseDiscountPercent (newItem st id)
         = Some (clamp (nullish (baseDiscountPercent st) (Num 0)) (Num 0)
                       (Num 100)))
  /\ HistoryItem.extra (newItem st id)
     = clamp (ToNumber (extra st)) (Num 0) (Num 100).
Proof.
  split; [| split]; [intro H | intro H |]; cbn; try rewrite H; auto.
Qed.

(** With a base price that is not negative and an extra percent that has
    been entered, what is stored lies in the intervals. *)
Lemma saved_discount_ranges
    (st : State) (id : string) (B e : Q) (a p : option Q) :
  basePrice st = Some (Num B) -> 0 <= B ->
  baseDiscountAmount st = option_map Num a ->
  baseDiscountPercent st = option_map Num p ->
  extra st = Some (Num e) ->
  match discountMode st with
  | amount =>
      exists v, HistoryItem.baseDiscountAmount (newItem st id) = Some v
                /\ within v (Num 0) (Num B) = true
  | percent =>
      exists v, HistoryItem.baseDiscountPercent (newItem st id) = Some v
                /\ within v (Num 0) (Num 100) = true
  end
  /\ within (HistoryItem.extra (newItem st id)) (Num 0) (Num 100) = true.
Proof.
  intros HB HB0 Ha Hp He.
  destruct (saved_discount_fields st id) as (Hamt & Hpct & Hext).
  split.
  - destruct (discountMode st).
    + destruct (Hamt eq_refl) as [_ E]. eexists. split; [exact E |].
      rewrite HB, Ha. destruct a; apply clamp_within; exact HB0.
    + destruct (Hpct eq_refl) as [_ E]. eexists. split; [exact E |].
      rewrite Hp. destruct p; apply clamp_within; lra.
  - rewrite Hext, He. apply clamp_within. lra.
Qed.

(** C10.  A record saved while the extra discount field has never been
    touched stores [NaN] as its extra percent, not a number between 0 and
    100: the missing value is not replaced by 0, as it is for the amount and
    the percent of the first discount one line above. *)
Theorem saved_extra_without_default :
  (forall st id,
      HistoryItem.extra (newItem st id)
      = clamp (ToNumber (extra st)) (Num 0) (Num 100))
  /\ clamp (ToNumber None) (Num 0) (Num 100) = NaN
  /\ history (fst (saveHistory offline_env scenario_no_extra empty_world))
     = [newItem scenario_no_extra "0"]
  /\ HistoryItem.extra (newItem scenario_no_extra "0") = NaN
  /\ within (HistoryItem.extra (newItem scenario_no_extra "0"))
            (Num 0) (Num 100) = false
  /\ is_number (HistoryItem.baseDiscountAmount (newItem scenario_no_extra "0"))
               20000 = true
  /\ HistoryItem.baseDiscountPercent (newItem scenario_no_extra "0") = None.
Proof.
  split; [reflexivity |].
  repeat split; vm_compute; reflexivity.
Qed.

(* ================================================================= *)
(** * Part III.  Further properties of the code *)
(* ================================================================= *)

(* ----------------------------------------------------------------- *)
(** ** Prices along the pipeline *)

Local Open Scope Q_scope.

(** Division by the constant 100, as a multiplication. *)
Ltac by_100 := unfold Qdiv in *; change (/ 100) with (1 # 100) in *.

(** A price scaled by a factor between 0 and 1 stays between 0 and itself. *)
Lemma scaled_price (x c : Q) :
  0 <= x -> 0 <= c <= 100 -> 0 <= x * (1 - c / 100) <= x.
Proof.
  intros Hx Hc.
  by_100.
  assert (H1 : 0 <= x * (1 - c * (1 # 100)))
    by (apply Qmult_le_0_compat; lra).
  assert (H2 : 0 <= x * (c * (1 # 100)))
    by (apply Qmult_le_0_compat; lra).
  lra.
Qed.

Lemma step2_value (B : Q) (mode : DiscountMode) (amt pct : option Q) :
  0 <= B ->
  exists s,
    step2AfterFirstDiscount (Some (Num B)) mode
      (option_map Num amt) (option_map Num pct) = Num s
    /\ 0 <= s <= B.
Proof.
  intro HB.
  destruct mode.
  - destruct amt as [a |]; js_simpl; eexists; (split; [reflexivity |]);
      qbool; lra.
  - destruct pct as [p |]; js_simpl; qbool; js_simpl;
      try (exfalso; lra);
      eexists; (split; [reflexivity |]);
      first [ apply scaled_price; lra | by_100; lra ].
Qed.

Lemma extra_value (p : Q) (e : Q) :
  0 <= p ->
  exists f, applyExtraPercent (Num p) (Some (Num e)) = Num f /\ 0 <= f <= p.
Proof.
  intro Hp.
  js_simpl; qbool; js_simpl; try (exfalso; lra);
    eexists; (split; [reflexivity |]);
    first [ apply scaled_price; lra | by_100; lra ].
Qed.

Lemma within_iff (x lo hi : Q) :
  within (Num x) (Num lo) (Num hi) = true <-> lo <= x <= hi.
Proof.
  unfold within, leb. rewrite andb_true_iff, !Qle_bool_iff. tauto.
Qed.

(** X1.  With a base price that is not negative, the price after the first
    discount lies between 0 and the base price, in both modes, whatever the
    amount or percent entered and also when none is entered. *)
Theorem first_discount_within_base
    (B : Q) (mode : DiscountMode) (amt pct : option Q) :
  0 <= B ->
  within
    (step2AfterFirstDiscount (Some (Num B)) mode
       (option_map Num amt) (option_map Num pct))
    (Num 0) (Num B) = true.
Proof.
  intro HB.
  destruct (step2_value B mode amt pct HB) as (s & E & Hs).
  rewrite E. now apply within_iff.
Qed.

Lemma first_discount_within_base_witness :
  within
    (step2AfterFirstDiscount (Some (Num 100000)) amount
       (Some (Num 250000)) None)
    (Num 0) (Num 100000) = true.
Proof.
  apply (first_discount_within_base 100000 amount (Some 250000) None).
  unfold Qle; simpl; lia.
Defined.






(* ----------------------------------------------------------------- *)
(** ** Settlements *)

Lemma kream_net_value (p : Q) :
  kreamNetFromPrice (Some (Num p)) = Some (Num (p * 0.956 - 5500)).
Proof. reflexivity. Qed.

(** The Poizon fee in one formula. *)
Lemma poizon_net_closed (p : Q) :
  exists net,
    poizonNetFromPrice (Some (Num p)) = Some (Num net)
    /\ net == p - Qclamp (p * 0.1) 15000 45000.
Proof.
  unfold Qclamp.
  destruct (Qlt_le_dec 150000 p) as [Hlo | Hlo].
  - destruct (Qlt_le_dec p 450000) as [Hhi | Hhi].
    + exists (p * 0.9). split; [apply poizonNet_middle; now split |].
      qminmax; lra.
    + exists (p - 45000). split; [now apply poizonNet_high |].
      qminmax; lra.
  - exists (p - 15000). split; [now apply poizonNet_low |].
    qminmax; lra.
Qed.





(* ----------------------------------------------------------------- *)
(** ** Margins and highlighting *)


(** X9.  In the results card, with a final price that is not negative, the
    Poizon margin row is red only if the Poizon settlement row is. *)
Theorem poizon_margin_red_implies_net_red (st : State) (F : Q) :
  final st =n= Num F -> 0 <= F ->
  poizonMarginRed st = true -> poizonNetRed st = true.
Proof.
  intros HF HF0.
  unfold poizonMarginRed, poizonNetRed, refund10, simpleRefund10.
  destruct (poizonNet st) as [[| net] |]; try discriminate.
  inversion HF as [| x y E Hx]; subst. js_simpl.
  intro H. qbool; js_simpl; try reflexivity; try discriminate.
  exfalso. lra.
Qed.

Lemma poizon_margin_red_implies_net_red_witness :
  poizonNetRed scenario_listed = true.
Proof.
  apply (poizon_margin_red_implies_net_red scenario_listed 72000).
  - constructor. reflexivity.
  - unfold Qle; simpl; lia.
  - reflexivity.
Defined.

(* ----------------------------------------------------------------- *)
(** ** Price inputs *)

Local Open Scope string_scope.

Lemma formatNumberInput_empty (s : string) :
  is_empty (formatNumberInput s) = is_empty (strip_non_digits s).
Proof.
  unfold formatNumberInput, Intl_NumberFormat_format.
  destruct (is_empty (strip_non_digits s)) eqn:E; [reflexivity |].
  pose proof (decimal_not_empty (Number_of_digits (strip_non_digits s))) as H.
  destruct (decimal (Number_of_digits (strip_non_digits s))); [discriminate H |].
  cbn [group3].
  now destruct (negb (length s0 =? 0)%nat && (length s0 mod 3 =? 0)%nat).
Qed.

Lemma formatNumberInput_of_parse (s : string) :
  formatNumberInput s
  = match parseNumberInput s with
    | Some n => Intl_NumberFormat_format n
    | None => ""
    end.
Proof.
  unfold formatNumberInput, parseNumberInput.
  now destruct (is_empty (strip_non_digits s)).
Qed.

Lemma formatNumberInput_twice (s : string) :
  formatNumberInput (formatNumberInput s) = formatNumberInput s.
Proof.
  rewrite (formatNumberInput_of_parse (formatNumberInput s)).
  rewrite parse_formatNumberInput.
  symmetry. apply formatNumberInput_of_parse.
Qed.




(* ----------------------------------------------------------------- *)
(** ** Labels *)

Lemma trimStart_all_white_space (s : string) :
  all_white_space (trimStart s) = all_white_space s.
Proof.
  induction s as [| c rest IH]; [reflexivity |].
  cbn [trimStart all_white_space].
  destruct (is_white_space c) eqn:E; [exact IH |].
  cbn [all_white_space]. now rewrite E.
Qed.

Lemma trimEnd_is_empty (s : string) :
  is_empty (trimEnd s) = all_white_space s.
Proof.
  induction s as [| c rest IH]; [reflexivity |].
  cbn [trimEnd all_white_space]. rewrite IH.
  destruct (is_white_space c), (all_white_space rest); reflexivity.
Qed.

Lemma blank_all_white_space (s : string) : blank s = all_white_space s.
Proof.
  unfold blank, trim.
  now rewrite trimEnd_is_empty, trimStart_all_white_space.
Qed.

Lemma trimEnd_idempotent (s : string) : trimEnd (trimEnd s) = trimEnd s.
Proof.
  induction s as [| c rest IH]; [reflexivity |].
  cbn [trimEnd].
  destruct (is_white_space c && is_empty (trimEnd rest)) eqn:E;
    [reflexivity |].
  cbn [trimEnd]. now rewrite IH, E.
Qed.

(** What [trimStart] returns does not start with white space. *)
Lemma trimStart_head (s : string) :
  match trimStart s with
  | "" => True
  | String c _ => is_white_space c = false
  end.
Proof.
  induction s as [| c rest IH]; [exact I |].
  cbn [trimStart]. destruct (is_white_space c) eqn:E; [exact IH | exact E].
Qed.

Lemma trimStart_trim (s : string) : trimStart (trim s) = trim s.
Proof.
  unfold trim. pose proof (trimStart_head s) as H.
  destruct (trimStart s) as [| c rest]; [reflexivity |].
  cbn [trimEnd]. rewrite H. cbn [andb trimStart]. now rewrite H.
Qed.

Lemma trim_idempotent (s : string) : trim (trim s) = trim s.
Proof.
  unfold trim at 1. rewrite trimStart_trim.
  unfold trim. apply trimEnd_idempotent.
Qed.

(** X12.  A label is rejected exactly when it consists of white space
    only (the empty label included); a label that is kept is stored without
    the white space at its two ends, and is not empty: trimming what is
    stored again changes nothing. *)
Theorem stored_label_is_trimmed (st : State) (id : string) :
  blank (memo st) = all_white_space (memo st)
  /\ (all_white_space (memo st) = true ->
      HistoryItem.memo (newItem st id) = None)
  /\ (all_white_space (memo st) = false ->
      HistoryItem.memo (newItem st id) = Some (trim (memo st))
      /\ trim (memo st) <> ""
      /\ trimStart (trim (memo st)) = trim (memo st)
      /\ trimEnd (trim (memo st)) = trim (memo st)
      /\ trim (trim (memo st)) = trim (memo st)).
Proof.
  pose proof (blank_all_white_space (memo st)) as Hb.
  split; [exact Hb | split]; intro H; rewrite H in Hb;
    unfold blank in Hb; cbn [HistoryItem.memo newItem]; rewrite Hb;
    [reflexivity |].
  split; [reflexivity | split; [| split; [| split]]].
  - intro E. rewrite E in Hb. discriminate Hb.
  - apply trimStart_trim.
  - unfold trim. apply trimEnd_idempotent.
  - apply trim_idempotent.
Qed.

Lemma stored_label_is_trimmed_witness :
  HistoryItem.memo (newItem (setMemo "  air force 1 " scenario) "0")
  = Some "air force 1".
Proof.
  apply (proj2 (proj2 (stored_label_is_trimmed
                         (setMemo "  air force 1 " scenario) "0"))).
  reflexivity.
Defined.

(* ----------------------------------------------------------------- *)
(** ** History and store, further *)

Local Open Scope list_scope.

Lemma id_differs_true (id : string) (h : HistoryItem.t) :
  id_differs id h = true <-> HistoryItem.id h <> id.
Proof.
  unfold id_differs. rewrite negb_true_iff. apply String.eqb_neq.
Qed.

Lemma deleteHistory_world (env : Env) (id : string) (st : State) (w : World) :
  alerts (snd (deleteHistory env id st w)) = alerts w
  /\ store_calls (snd (deleteHistory env id st w))
     = store_calls w
       ++ match supabase env with
          | Some _ => [DeleteCall id]
          | None => []
          end.
Proof.
  unfold deleteHistory, dbDeleteHistory.
  destruct (supabase env) as [client |].
  - unfold bind, request.
    destruct (delete_response client (store_calls w) id); split; reflexivity.
  - cbn. now rewrite app_nil_r.
Qed.

(** X13.  Deleting by identifier removes every record with that
    identifier and no other, keeps the order of the rest, and changes
    nothing when no record has the identifier; the history is updated
    whether or not the store accepts the request, to which at most one
    delete request is sent; deleting the same identifier again changes
    nothing more. *)
Theorem delete_history_removes_id
    (env : Env) (id : string) (st : State) (w : World) :
  history (fst (deleteHistory env id st w))
  = filter (id_differs id) (history st)
  /\ (forall h, In h (history (fst (deleteHistory env id st w)))
                <-> In h (history st) /\ HistoryItem.id h <> id)
  /\ (~ In id (map HistoryItem.id (history st)) ->
      history (fst (deleteHistory env id st w)) = history st)
  /\ (forall w',
        history (fst (deleteHistory env id
                        (fst (deleteHistory env id st w)) w'))
        = history (fst (deleteHistory env id st w)))
  /\ store_calls (snd (deleteHistory env id st w))
     = store_calls w
       ++ match supabase env with
          | Some _ => [DeleteCall id]
          | None => []
          end.
Proof.
  destruct (deleteHistory_state env id st w) as [Hh _].
  split; [exact Hh | split; [| split; [| split]]].
  - intro h. rewrite Hh, filter_In, id_differs_true. tauto.
  - intro Hid. rewrite Hh. apply forallb_filter_id.
    apply forallb_forall. intros h Hin. apply id_differs_true.
    intro E. apply Hid. apply in_map_iff. now exists h.
  - intro w'.
    destruct (deleteHistory_state env id (fst (deleteHistory env id st w)) w')
      as [Hh' _].
    rewrite Hh', Hh. apply forallb_filter_id.
    apply forallb_forall. intros h Hin.
    now apply filter_In in Hin as [_ Hin].
  - apply deleteHistory_world.
Qed.

Lemma delete_history_removes_id_witness :
  history (fst (deleteHistory online_env "7"
                  (setHistory (fun _ => [newItem scenario_listed "0"])
                     scenario_listed)
                  empty_world))
  = [newItem scenario_listed "0"].
Proof.
  apply (proj1 (proj2 (proj2 (delete_history_removes_id online_env "7"
    (setHistory (fun _ => [newItem scenario_listed "0"]) scenario_listed)
    empty_world)))).
  cbn. intros [H | []]. discriminate H.
Defined.

Lemma saveHistory_labelled_memo (env : Env) (st : State) (w : World) :
  blank (memo st) = false -> memo (fst (saveHistory env st w)) = "".
Proof.
  intro Hb.
  destruct (saveHistory_labelled env st w Hb) as (Hst & _).
  now rewrite Hst.
Qed.

(** X14.  A save that is accepted clears the label, so that saving again
    at once is rejected: the history grows by exactly one record, not
    two. *)
Theorem save_twice_saves_once (env : Env) (st : State) (w : World) :
  blank (memo st) = false ->
  memo (fst (saveHistory env st w)) = ""
  /\ List.length (history (fst (saveHistory env st w)))
     = S (List.length (history st))
  /\ fst (saveHistory env (fst (saveHistory env st w))
            (snd (saveHistory env st w)))
     = fst (saveHistory env st w).
Proof.
  intro Hb.
  pose proof (saveHistory_labelled_memo env st w Hb) as Hm.
  destruct (saveHistory_labelled env st w Hb) as (Hst & _).
  split; [exact Hm | split].
  - rewrite Hst. reflexivity.
  - rewrite saveHistory_blank; [reflexivity |].
    now rewrite Hm.
Qed.

Lemma save_twice_saves_once_witness :
  List.length (history (fst (saveHistory online_env scenario_listed empty_world)))
  = 1%nat.
Proof.
  apply (proj1 (proj2 (save_twice_saves_once online_env scenario_listed
                         empty_world eq_refl))).
Defined.

(** X15.  A save is optimistic: with a configured store the record is in
    the history and the label is cleared whatever the store answers; the
    one insert request carries the row of the record; a failure is only
    logged, as one warning, and nothing is rolled back. *)
Theorem save_is_optimistic
    (env : Env) (client : SupabaseClient) (st : State) (w : World) :
  supabase env = Some client ->
  blank (memo st) = false ->
  history (fst (saveHistory env st w))
  = newItem st (next_id env (ids_drawn w)) :: history st
  /\ store_calls (snd (saveHistory env st w))
     = store_calls w
       ++ [InsertCall (row_of_item (newItem st (next_id env (ids_drawn w))))]
  /\ warnings (snd (saveHistory env st w))
     = warnings w
       ++ match insert_response client (store_calls w)
                  (row_of_item (newItem st (next_id env (ids_drawn w)))) with
          | Some e => [InsertFailed e]
          | None => []
          end.
Proof.
  intros Hc Hb.
  destruct (saveHistory_labelled env st w Hb) as (Hst & _ & _ & Hcalls).
  rewrite Hst, Hcalls, Hc.
  split; [reflexivity | split; [reflexivity |]].
  unfold saveHistory. unfold blank in Hb. rewrite Hb.
  unfold bind, new_id, dbInsertHistory. rewrite Hc.
  unfold request. cbn [fst snd store_calls].
  destruct (insert_response client (store_calls w)
              (row_of_item (newItem st (next_id env (ids_drawn w)))));
    cbn; [reflexivity | now rewrite app_nil_r].
Qed.

Lemma save_is_optimistic_witness :
  history (fst (saveHistory failing_env scenario_listed empty_world))
  = [newItem scenario_listed "0"]
  /\ store_calls (snd (saveHistory failing_env scenario_listed empty_world))
     = [InsertCall (row_of_item (newItem scenario_listed "0"))]
  /\ warnings (snd (saveHistory failing_env scenario_listed empty_world))
     = [InsertFailed (StoreError "unreachable")].
Proof.
  apply (save_is_optimistic failing_env failing_client scenario_listed
           empty_world eq_refl eq_refl).
Defined.

(** X16.  Writing a record to a row and reading it back keeps every field
    but the two fees and the time of creation; every record that
    [dbFetchHistory] returns has both fees undefined; for a record built by
    the save action the fees can be computed again from the prices and nets
    that are kept. *)
Theorem row_round_trip :
  (forall item, item_of_row (row_of_item item) = persisted item)
  /\ (forall env limit w h,
        In h (data (fst (dbFetchHistory env limit w))) ->
        HistoryItem.kreamFee h = None /\ HistoryItem.poizonFee h = None)
  /\ (forall st id,
        kreamFeeFromPrice
          (HistoryItem.kreamPrice (persisted (newItem st id)))
          (HistoryItem.kreamNet (persisted (newItem st id)))
        = HistoryItem.kreamFee (newItem st id)
        /\ poizonFeeFromPrice
             (HistoryItem.poizonPrice (persisted (newItem st id)))
             (HistoryItem.poizonNet (persisted (newItem st id)))
           = HistoryItem.poizonFee (newItem st id)).
Proof.
  split; [reflexivity | split].
  - intros env limit w h. unfold dbFetchHistory.
    destruct (supabase env) as [client |]; [| intros []].
    unfold bind, request.
    destruct (response_error (select_response client (store_calls w) limit));
      [intros [] |].
    cbn [fst data ret]. intro Hin.
    apply in_map_iff in Hin as (r & <- & _). split; reflexivity.
  - intros st id. split; reflexivity.
Qed.

Lemma row_round_trip_witness :
  HistoryItem.kreamFee (item_of_row stored_row) = None
  /\ HistoryItem.poizonFee (item_of_row stored_row) = None.
Proof.
  apply (proj1 (proj2 row_round_trip) online_env 100%nat empty_world).
  left. reflexivity.
Defined.

Lemma history_ids_distinct_witness :
  NoDup (map HistoryItem.id
           (history (fst (run online_env
                            [Load; Edit scenario_listed; Save;
                             Edit scenario_listed; Save; Delete "0";
                             Edit scenario_listed; Save]
                            (initialState, empty_world))))).
Proof.
  apply (history_ids_distinct online_env
           [Load; Edit scenario_listed; Save; Edit scenario_listed; Save;
            Delete "0"; Edit scenario_listed; Save]
           empty_world counter_id_injective).
Defined.

Lemma saveHistory_calls (env : Env) (st : State) (w : World) :
  store_calls (snd (saveHistory env st w))
  = store_calls w
    ++ match supabase env with
       | Some _ =>
           if blank (memo st) then []
           else [InsertCall (row_of_item
                               (newItem st (next_id env (ids_drawn w))))]
       | None => []
       end.
Proof.
  destruct (blank (memo st)) eqn:Hb.
  - rewrite (saveHistory_blank env st w Hb). cbn [snd].
    destruct (window_defined env), (supabase env);
      cbn; now rewrite app_nil_r.
  - destruct (saveHistory_labelled env st w Hb) as (_ & _ & _ & H).
    exact H.
Qed.

(** X17.  While one of the two configuration values is absent, nothing the
    user does sends a request to the store: after any sequence of loads,
    edits, saves, deletes and clears the log of requests is what it was. *)
Theorem unconfigured_run_is_local
    (env : Env) (events : list Event) (s : State * World) :
  absent (SUPABASE_URL env) \/ absent (SUPABASE_ANON_KEY env) ->
  store_calls (snd (run env events s)) = store_calls (snd s).
Proof.
  intro H. apply supabase_absent in H.
  revert s. induction events as [| ev rest IH]; [reflexivity |].
  intros [st w]. cbn [run]. rewrite IH.
  destruct ev; cbn [step snd].
  - now rewrite (proj1 (initialLoad_world env st w)).
  - reflexivity.
  - rewrite saveHistory_calls, H. apply app_nil_r.
  - rewrite (proj2 (deleteHistory_world env id st w)), H. apply app_nil_r.
  - reflexivity.
Qed.

Lemma unconfigured_run_is_local_witness :
  store_calls (snd (run offline_env
                      [Load; Edit scenario_listed; Save; Delete "0"; Clear]
                      (initialState, empty_world)))
  = [].
Proof.
  apply (unconfigured_run_is_local offline_env
           [Load; Edit scenario_listed; Save; Delete "0"; Clear]
           (initialState, empty_world)).
  left. reflexivity.
Defined.

(** *** The store as a mirror of the history *)


Lemma table_app (log : list StoreCall) (c : StoreCall) :
  table (log ++ [c]) = apply_call (table log) c.
Proof. unfold table. now rewrite fold_left_app. Qed.

Lemma mirrored_filter (id : string) (t : list Row.t) (l : list HistoryItem.t) :
  map (fun r => persisted (item_of_row r)) t = map persisted l ->
  map (fun r => persisted (item_of_row r)) (filter (row_id_differs id) t)
  = map persisted (filter (id_differs id) l).
Proof.
  revert l. induction t as [| r t IH]; intros [| h l] H;
    try discriminate H; [reflexivity |].
  cbn [map] in H.
  pose proof (f_equal (hd (persisted h)) H) as Hhead.
  pose proof (f_equal (@tl _) H) as Htail.
  cbn [hd tl] in Hhead, Htail.
  cbn [filter].
  assert (E : row_id_differs id r = id_differs id h).
  { unfold row_id_differs, id_differs.
    apply (f_equal HistoryItem.id) in Hhead. cbn in Hhead.
    now rewrite Hhead. }
  rewrite E. destruct (id_differs id h); cbn [map];
    [rewrite Hhead; f_equal |]; now apply IH.
Qed.

Lemma step_mirrored (env : Env) (ev : Event) (s : State * World) :
  supabase env = Some table_client ->
  is_clear ev = false ->
  mirrored s -> mirrored (step env ev s).
Proof.
  intros Hc Hev. destruct s as [st w]. unfold mirrored. cbn [fst snd].
  intro H. destruct ev; try discriminate Hev; cbn [step].
  - destruct (initialLoad_world env st w) as [Hw Hh]. now rewrite Hw, Hh.
  - exact H.
  - rewrite saveHistory_calls, Hc.
    destruct (blank (memo st)) eqn:Hb.
    + rewrite app_nil_r, (saveHistory_blank env st w Hb). exact H.
    + destruct (saveHistory_labelled env st w Hb) as (Hst & _).
      rewrite Hst, table_app. cbn [history setMemo setHistory apply_call map].
      now rewrite H.
  - destruct (deleteHistory_state env id st w) as [Hh _].
    rewrite (proj2 (deleteHistory_world env id st w)), Hc, Hh, table_app.
    cbn [apply_call]. now apply mirrored_filter.
Qed.



(** *** Records are consistent snapshots *)

Lemma clamp_idempotent (n lo hi : number) :
  clamp (clamp n lo hi) lo hi =n= clamp n lo hi.
Proof. destruct n, lo, hi; same. Qed.

Lemma newItem_consistent (st : State) (id : string) :
  blank (memo st) = false -> record_consistent (newItem st id).
Proof.
  intro Hb. unfold record_consistent.
  cbn [HistoryItem.final HistoryItem.refund10 HistoryItem.kreamNet
       HistoryItem.kreamFee HistoryItem.kreamPrice HistoryItem.poizonNet
       HistoryItem.poizonFee HistoryItem.poizonPrice HistoryItem.memo
       HistoryItem.basePrice HistoryItem.discountMode HistoryItem.extra
       HistoryItem.baseDiscountAmount HistoryItem.baseDiscountPercent newItem].
  split; [| repeat (split; [reflexivity |])].
  - unfold final, step2, applyExtraPercent, step2AfterFirstDiscount.
    cbn [ToNumber nullish].
    rewrite !clamp_idempotent.
    destruct (discountMode st); cbn [nullish]; rewrite ?clamp_idempotent;
      reflexivity.
  - unfold blank in Hb. rewrite Hb.
    exists (trim (memo st)). split; [reflexivity |].
    rewrite <- blank_all_white_space. unfold blank.
    now rewrite trim_idempotent.
Qed.

(** X19.  Every record of the history is a consistent snapshot, whatever
    the user has done since the first render: its final price is the one
    computed from its stored base price, mode, discount and extra percent;
    its tax is a tenth of its final price; its nets and fees are those of its
    listing prices; and its label is not blank. *)
Theorem history_records_consistent
    (env : Env) (events : list Event) (w : World) (h : HistoryItem.t) :
  In h (history (fst (run env events (initialState, w)))) ->
  record_consistent h.
Proof.
  assert (inv : forall evs s,
    (forall x, In x (history (fst s)) -> record_consistent x) ->
    forall x, In x (history (fst (run env evs s))) -> record_consistent x).
  { induction evs as [| ev rest IH]; intros [st w0] Hs; [exact Hs |].
    cbn [run]. apply IH. cbn [fst] in Hs. intros x.
    destruct ev; cbn [step].
    - destruct (initialLoad_world env st w0) as [_ Hh].
      rewrite Hh. apply Hs.
    - cbn [fst history setHistory]. apply Hs.
    - destruct (blank (memo st)) eqn:Hb.
      + rewrite (saveHistory_blank env st w0 Hb). cbn [fst]. apply Hs.
      + destruct (saveHistory_labelled env st w0 Hb) as (Hst & _).
        rewrite Hst. cbn [history setMemo setHistory].
        intros [<- | Hx]; [now apply newItem_consistent | now apply Hs].
    - destruct (deleteHistory_state env id st w0) as [Hh _].
      rewrite Hh. intro Hx. apply filter_In in Hx as [Hx _]. now apply Hs.
    - cbn [fst history clearHistory setHistory]. intros []. }
  apply inv. cbn. intros x [].
Qed.

Lemma history_records_consistent_witness :
  record_consistent (newItem scenario_no_extra "0").
Proof.
  apply (history_records_consistent offline_env
           [Edit scenario_no_extra; Save] empty_world).
  left. reflexivity.
Defined.
